(** * nnetplot: layout geometry and activation sampling

    A shallow embedding of [nnetplot/activations.py] and
    [nnetplot/nnetplot.py], followed by the properties of the layout
    model that the specification states.

    Conventions of the embedding.
    - Python numbers that carry coordinates (anchors, radius, spacings,
      padding, ratios) are exact rationals [Q]; every arithmetic
      expression is written with the operations and in the order of the
      source.  [=] between rationals is used where the code computes
      literally the stated expression, [==] where the statement needs
      arithmetic.
    - [rows] and [columns] are Python ints, embedded as [Z].
    - A Python value that may be a callable, a string, [None], a bool
      or a number is a [pyval].
    - Layers are mutable objects: they live in a store indexed by
      references, and the alignment functions update the store.
    - The matplotlib axis is the log of the calls made on it.
    - Statements are kept to what rounding preserves.  Where a sentence
      of the specification fails through rounding alone, the expressions
      of the source are evaluated in binary64 as well (module
      [binary64]). *)

From Stdlib Require Import QArith Lqa ZArith List String Lia.
From Stdlib Require PrimFloat.
From stdpp Require Import base option gmap strings list.

Local Open Scope Q_scope.

(** ** Python values and exceptions *)

Definition activation_fn : Type := Q -> Q -> Q -> Q.

Inductive pyval : Type :=
  | PyNone
  | PyBool (b : bool)
  | PyNum (q : Q)
  | PyStr (s : string)
  | PyCallable (f : activation_fn).

Inductive exn : Type :=
  | TypeError.

Inductive result (A : Type) : Type :=
  | Ok (a : A)
  | Raise (e : exn).

Arguments Ok {A} a.
Arguments Raise {A} e.

Definition rbind {A B : Type} (m : result A) (k : A -> result B) : result B :=
  match m with
  | Ok a => k a
  | Raise e => Raise e
  end.

(** [callable(v)] *)
Definition callable (v : pyval) : bool :=
  match v with
  | PyCallable _ => true
  | _ => false
  end.

(** [v == "name"] for a string literal on the right. *)
Definition py_eq_str (v : pyval) (name : string) : bool :=
  match v with
  | PyStr s => String.eqb s name
  | _ => false
  end.

(** Truth value of [v], as [not v] and [if v] test it. *)
Definition truthy (v : pyval) : bool :=
  match v with
  | PyNone => false
  | PyBool b => b
  | PyNum q => negb (Qeq_bool q 0)
  | PyStr s => negb (String.eqb s EmptyString)
  | PyCallable _ => true
  end.

(** [v(x, y, radius)]: calling a value that is not callable raises. *)
Definition py_call (v : pyval) (x y radius : Q) : result Q :=
  match v with
  | PyCallable f => Ok (f x y radius)
  | _ => Raise TypeError
  end.

(** [[body(xi) for xi in X]] with a body that may raise. *)
Fixpoint list_comp {A B : Type} (body : A -> result B) (X : list A)
  : result (list B) :=
  match X with
  | [] => Ok []
  | xi :: rest =>
      rbind (body xi) (fun b =>
      rbind (list_comp body rest) (fun bs =>
      Ok (b :: bs)))
  end.

(** [range(n)] for a Python int [n]: empty when [n <= 0]. *)
Definition range (n : Z) : list Z :=
  map Z.of_nat (seq 0 (Z.to_nat n)).

(** ** activations.py *)

Module activations.

Section WithExp.

(** [np.exp] belongs to numpy; only [sigmoid] uses it. *)
Variable np_exp : Q -> Q.

Definition relu (x y radius : Q) : Q :=
  if Qle_bool x 0 then 0 - radius / 4 else x - radius / 4.

Definition sigmoid (x y radius : Q) : Q :=
  radius / (1 + np_exp (- radius * 100 * x)) - radius / 2.

Definition linear (x y radius : Q) : Q := x.

(** Modelled from the spec: [np.linspace(start, stop)] is numpy's and
    not part of the repository.  With numpy's default [num = 50] and
    both end points included it gives the "fixed number (50) of evenly
    spaced x positions spanning" [[start, stop]]: sample [i] is
    [i * step + start] with [step = (stop - start) / (num - 1)]. *)
Definition np_linspace_num (start stop : Q) (num : nat) : list Q :=
  let step := (stop - start) / inject_Z (Z.of_nat num - 1) in
  map (fun i => inject_Z i * step + start) (range (Z.of_nat num)).

Definition np_linspace (start stop : Q) : list Q :=
  np_linspace_num start stop 50.

Definition make_node_data (x y radius : Q) (activation : pyval)
  : result (list Q * list Q) :=
  let X := np_linspace (x - radius) (x + radius) in
  rbind (list_comp
           (fun xi => rbind (py_call activation (xi - x) y radius)
                            (fun a => Ok (y + a))) X) (fun Y =>
  Ok (X, Y)).

Definition dispacth_activation (s : pyval) : pyval :=
  if callable s then s
  else if py_eq_str s "relu" then PyCallable relu
  else if py_eq_str s "sigmoid" then PyCallable sigmoid
  else if py_eq_str s "linear" then PyCallable linear
  else PyNone.

End WithExp.

End activations.

(** ** nnetplot.py *)

Module nnetplot.

Import activations.

(** Calls received by a matplotlib axis, in the order they are made. *)
Inductive draw_call : Type :=
  | AddCircle (xy : Q * Q) (radius : Q)
      (* axis.add_patch(plt.Circle(xy, radius=..., facecolor="white", edgecolor="black")) *)
  | PlotCurve (X Y : list Q)
      (* axis.plot(X, Y, color="blue", linewidth=5), clipped to the circle *)
  | PlotSegment (xs ys : list Q)
      (* axis.plot([xout, xin], [yout, yin], color="black", zorder=-10) *)
  | Annotate (txt : string) (xy : Q * Q).
      (* axis.annotate(txt, xy=xy, verticalalignment="center", ...) *)

Definition axis : Type := list draw_call.

Record Node : Type := mkNode {
  node_x : Q;
  node_y : Q;
  node_radius : Q;
  node_activation : pyval;
  node_special : pyval
}.

Record Layer : Type := mkLayer {
  rows : Z;
  columns : Z;
  activation_str : pyval;
  activation : pyval;
  special : pyval;
  xanchor : Q;
  yanchor : Q;
  radius : Q;
  vspace : Q;
  hspace : Q
}.

(** The dict returned by [rect_coords]: keys "xy", "width", "height". *)
Record rect : Type := mkRect {
  xy : Q * Q;
  width : Q;
  height : Q
}.

(** Attribute assignments [layer.yanchor = v] and [layer.xanchor = v]. *)
Definition set_yanchor (l : Layer) (v : Q) : Layer :=
  mkLayer (rows l) (columns l) (activation_str l) (activation l) (special l)
          (xanchor l) v (radius l) (vspace l) (hspace l).

Definition set_xanchor (l : Layer) (v : Q) : Layer :=
  mkLayer (rows l) (columns l) (activation_str l) (activation l) (special l)
          v (yanchor l) (radius l) (vspace l) (hspace l).

Section WithExp.

Variable np_exp : Q -> Q.

(** [Node.__init__] *)
Definition Node_init (x y radius : Q) (activation special : pyval) : Node :=
  {| node_x := x;
     node_y := y;
     node_radius := radius;
     node_activation := dispacth_activation np_exp activation;
     node_special := special |}.

(** [Node.draw]: the two [elif] branches on "input"/"output" only [pass]. *)
Definition Node_draw (self : Node) (ax : axis) : result axis :=
  let ax := ax ++ [AddCircle (node_x self, node_y self) (node_radius self)] in
  if negb (truthy (node_special self)) then
    rbind (make_node_data (node_x self) (node_y self) (node_radius self)
                          (node_activation self)) (fun d =>
    Ok (ax ++ [PlotCurve (fst d) (snd d)]))
  else Ok ax.

(** [Layer.__init__]; the Python defaults are [activation=None],
    [special=False], [xanchor=0], [yanchor=0], [radius=0.2],
    [vspace=0.1], [hspace=0.1]. *)
Definition Layer_init (rows columns : Z) (activation special : pyval)
    (xanchor yanchor radius vspace hspace : Q) : Layer :=
  {| rows := rows;
     columns := columns;
     activation_str := activation;
     activation := dispacth_activation np_exp activation;
     special := special;
     xanchor := xanchor;
     yanchor := yanchor;
     radius := radius;
     vspace := vspace;
     hspace := hspace |}.

(** [Layer.node_centers].  The generator reads the layer's fields while
    it runs; none of its consumers in this module assigns a field of a
    layer between two yields, so the generated sequence is the list
    computed from the layer as it is when the iteration starts. *)
Fixpoint rows_loop (self : Layer) (row_idxs : list Z) (x y : Q) : list (Q * Q) :=
  match row_idxs with
  | [] => []
  | _ :: rest =>
      (x, y) :: rows_loop self rest x (y - (2 * radius self + vspace self))
  end.

Fixpoint cols_loop (self : Layer) (col_idxs : list Z) (x y : Q) : list (Q * Q) :=
  match col_idxs with
  | [] => []
  | _ :: rest =>
      rows_loop self (range (rows self)) x y
        ++ cols_loop self rest (x + (2 * radius self + hspace self))
                     (yanchor self - radius self)
  end.

Definition node_centers (self : Layer) : list (Q * Q) :=
  cols_loop self (range (columns self))
            (xanchor self + radius self) (yanchor self - radius self).

Definition inbound_node_connections (self : Layer) : list (Q * Q) :=
  map (fun c => (fst c - 0.2 * radius self, snd c)) (node_centers self).

Definition outbound_node_connections (self : Layer) : list (Q * Q) :=
  map (fun c => (fst c + 0.2 * radius self, snd c)) (node_centers self).

(** [Layer.rect_coords] *)
Definition rect_coords (self : Layer) (pad : Q) : rect :=
  {| xy := (xanchor self - pad, yanchor self + pad);
     width := 2 * radius self * inject_Z (columns self) + 2 * pad
              + inject_Z (columns self - 1) * hspace self;
     height := - (2 * radius self * inject_Z (rows self) + 2 * pad
                  + inject_Z (rows self - 1) * vspace self) |}.

Definition inbound_rect_connections (self : Layer) (pad width_ : Q)
  : list (Q * Q) :=
  let coords := rect_coords self pad in
  let x := fst (xy coords) in
  let y1 := snd (xy coords) + (0.5 - width_ / 2) * height coords in
  let y2 := snd (xy coords) + (0.5 + width_ / 2) * height coords in
  [(x, y1); (x, y2)].

Definition outbound_rect_connections (self : Layer) (pad width_ : Q)
  : list (Q * Q) :=
  let coords := rect_coords self pad in
  let x := fst (xy coords) + width coords in
  let y1 := snd (xy coords) + (0.5 - width_ / 2) * height coords in
  let y2 := snd (xy coords) + (0.5 + width_ / 2) * height coords in
  [(x, y1); (x, y2)].

(** The nodes [Layer.draw_nodes] constructs, one per node center. *)
Definition draw_nodes_node (self : Layer) (c : Q * Q) : Node :=
  Node_init (fst c) (snd c) (radius self) (activation self) (special self).

Fixpoint draw_nodes_loop (self : Layer) (centers : list (Q * Q)) (ax : axis)
  : result axis :=
  match centers with
  | [] => Ok ax
  | c :: rest =>
      rbind (Node_draw (draw_nodes_node self c) ax) (fun ax' =>
      draw_nodes_loop self rest ax')
  end.

Definition draw_nodes (self : Layer) (ax : axis) : result axis :=
  draw_nodes_loop self (node_centers self) ax.

(** [Layer.annotate_nodes]: one [axis.annotate] per element of
    [zip(annotations, self.node_centers())]. *)
Definition annotate_nodes (self : Layer) (ax : axis) (annotations : list string)
  : axis :=
  foldl (fun ax p => ax ++ [Annotate (fst p) (snd p)])
        ax (zip annotations (node_centers self)).

(** The body shared by the four [connect_*] functions: a [for] over the
    outbound points, and inside it a [for] over the inbound points
    (produced anew for each outbound point). *)
Definition connect_loops (outs ins : list (Q * Q)) (ax : axis) : axis :=
  foldl (fun ax out =>
           foldl (fun ax inn =>
                    ax ++ [PlotSegment [fst out; fst inn] [snd out; snd inn]])
                 ax ins)
        ax outs.

Definition connect_nodes_to_nodes (layer0 layer1 : Layer) (ax : axis) : axis :=
  connect_loops (outbound_node_connections layer0)
                (inbound_node_connections layer1) ax.

Definition connect_nodes_to_rect (layer0 layer1 : Layer) (ax : axis)
    (pad width_ : Q) : axis :=
  connect_loops (outbound_node_connections layer0)
                (inbound_rect_connections layer1 pad width_) ax.

Definition connect_rect_to_nodes (layer0 layer1 : Layer) (ax : axis)
    (pad width_ : Q) : axis :=
  connect_loops (outbound_rect_connections layer0 pad width_)
                (inbound_node_connections layer1) ax.

(** ** The store of layer objects and the alignment functions *)

Definition ref : Type := nat.

(** [vertical_align(layer0, layer1, ratio)]; the arguments are
    references, which may denote the same object. *)
Definition vertical_align (layer0 layer1 : ref) (ratio : Q)
    (st : gmap nat Layer) : option (gmap nat Layer) :=
  l0 ← st !! layer0;
  let y0 := yanchor l0 in
  let h0 := height (rect_coords l0 0) in
  l1 ← st !! layer1;
  let y1 := yanchor l1 in
  let h1 := height (rect_coords l1 0) in
  Some (<[layer1 := set_yanchor l1 (y0 - ratio * (h1 - h0))]> st).

(** [horizontal_align(layer0, layer1, spacing)] *)
Definition horizontal_align (layer0 layer1 : ref) (spacing : Q)
    (st : gmap nat Layer) : option (gmap nat Layer) :=
  l0 ← st !! layer0;
  let x0 := xanchor l0 in
  l1 ← st !! layer1;
  Some (<[layer1 := set_xanchor l1 (xanchor l0 + spacing)]> st).

End WithExp.

(** [connect_rect_to_rect]; [outbound_kw] and [inbound_kw] carry the
    padding and the spread of the two rectangles. *)
Definition connect_rect_to_rect (layer0 layer1 : Layer) (ax : axis)
    (pad_out width_out pad_in width_in : Q) : axis :=
  connect_loops (outbound_rect_connections layer0 pad_out width_out)
                (inbound_rect_connections layer1 pad_in width_in) ax.

End nnetplot.

(** ** The sampling of [activations.py] in binary64 *)

Module binary64.

Import PrimFloat.
Local Open Scope float_scope.

(** [np.arange(0, num)] as floats: 0, 1, 2, ... *)
Fixpoint arange_from (k : float) (num : nat) : list float :=
  match num with
  | O => []
  | S n => k :: arange_from (k + 1) n
  end.

(** Modelled from the spec: [np.linspace(start, stop)] with numpy's
    default [num = 50], as [activations.np_linspace] above: sample [i]
    is [i * step + start] with [step = (stop - start) / 49], every
    operation rounded to binary64. *)
Definition np_linspace (start stop : float) : list float :=
  let step := (stop - start) / 49 in
  map (fun i => i * step + start) (arange_from 0 50).

Definition linear (x y radius : float) : float := x.

(** [make_node_data] with a callable activation. *)
Definition make_node_data (x y radius : float)
    (activation : float -> float -> float -> float)
  : list float * list float :=
  let X := np_linspace (x - radius) (x + radius) in
  let Y := map (fun xi => y + activation (xi - x) y radius) X in
  (X, Y).

End binary64.

Import activations nnetplot.

(** ** Concrete layers used below *)

(** [Layer(rows=3, columns=4)] with the default arguments. *)
Definition layer_3x4 : Layer :=
  mkLayer 3 4 PyNone PyNone (PyBool false) 0 0 0.2 0.1 0.1.

(** [Layer(rows=12, columns=1)] and [Layer(rows=1, columns=1)], as in
    the usage example of the [Layer] docstring. *)
Definition layer_12x1 : Layer :=
  mkLayer 12 1 PyNone PyNone (PyBool false) 0 0 0.2 0.1 0.1.

Definition layer_1x1 : Layer :=
  mkLayer 1 1 PyNone PyNone (PyBool false) 0 0 0.2 0.1 0.1.

(** [Layer(rows=0, columns=1)] and [Layer(rows=-1, columns=-1)]. *)
Definition layer_0x1 : Layer :=
  mkLayer 0 1 PyNone PyNone (PyBool false) 0 0 0.2 0.1 0.1.

Definition layer_neg : Layer :=
  mkLayer (-1) (-1) PyNone PyNone (PyBool false) 0 0 0.2 0.1 0.1.

(** [Layer(rows=2, columns=1)] and [Layer(rows=3, columns=1)]. *)
Definition layer_2x1 : Layer :=
  mkLayer 2 1 PyNone PyNone (PyBool false) 0 0 0.2 0.1 0.1.

Definition layer_3x1 : Layer :=
  mkLayer 3 1 PyNone PyNone (PyBool false) 0 0 0.2 0.1 0.1.

(** A store with two distinct layer objects. *)
Definition store2 : gmap nat Layer :=
  <[1%nat := layer_12x1]> (<[0%nat := layer_1x1]> ∅).

(** Two layers of equal rectangle height at different anchors. *)
Definition layer_1x1_low : Layer :=
  mkLayer 1 1 PyNone PyNone (PyBool false) 2 (-3) 0.2 0.1 0.1.

Definition store_level : gmap nat Layer :=
  <[1%nat := layer_1x1_low]> (<[0%nat := layer_1x1]> ∅).

(** [Layer(rows=2, columns=2, special="input")] and
    [Layer(rows=2, columns=2, activation="relu")]. *)
Definition layer_input : Layer :=
  mkLayer 2 2 PyNone PyNone (PyStr "input") 0 0 0.2 0.1 0.1.

Definition layer_relu : Layer :=
  mkLayer 2 2 (PyStr "relu") (PyCallable relu) (PyBool false) 0 0 0.2 0.1 0.1.

(** * Properties *)

(** ** Node centers *)

Lemma range_length (n : Z) : length (range n) = Z.to_nat n.
Proof. unfold range. by rewrite length_map, length_seq. Qed.

Lemma range_nonpos (n : Z) : (n <= 0)%Z -> range n = [].
Proof. intros Hn. unfold range. by replace (Z.to_nat n) with 0%nat by lia. Qed.

Section NodeCenters.

Variable self : Layer.

Local Abbreviation down := (fun y : Q => y - (2 * radius self + vspace self)).
Local Abbreviation right := (fun x : Q => x + (2 * radius self + hspace self)).

Lemma rows_loop_length (idxs : list Z) (x y : Q) :
  length (rows_loop self idxs x y) = length idxs.
Proof.
  revert y. induction idxs as [|i idxs IH]; intros y; simpl; [done|].
  by rewrite IH.
Qed.

Lemma rows_loop_lookup (idxs : list Z) (x y : Q) (r : nat) :
  (r < length idxs)%nat ->
  rows_loop self idxs x y !! r = Some (x, Nat.iter r down y).
Proof.
  revert y r. induction idxs as [|i idxs IH]; intros y r Hr; simpl in *; [lia|].
  destruct r as [|r]; [done|].
  rewrite Nat.iter_succ_r. simpl. apply IH. lia.
Qed.

Lemma cols_loop_length (idxs : list Z) (x y : Q) :
  length (cols_loop self idxs x y)
  = (length idxs * Z.to_nat (rows self))%nat.
Proof.
  revert x y. induction idxs as [|i idxs IH]; intros x y; simpl; [done|].
  by rewrite length_app, rows_loop_length, range_length, IH.
Qed.

Lemma cols_loop_lookup (idxs : list Z) (x : Q) (c r : nat) :
  (c < length idxs)%nat -> (r < Z.to_nat (rows self))%nat ->
  cols_loop self idxs x (yanchor self - radius self)
    !! (c * Z.to_nat (rows self) + r)%nat
  = Some (Nat.iter c right x, Nat.iter r down (yanchor self - radius self)).
Proof.
  revert x c. induction idxs as [|i idxs IH]; intros x c Hc Hr; simpl in *; [lia|].
  destruct c as [|c]; simpl.
  - rewrite lookup_app_l by (rewrite rows_loop_length, range_length; lia).
    apply rows_loop_lookup. rewrite range_length. lia.
  - rewrite lookup_app_r by (rewrite rows_loop_length, range_length; lia).
    rewrite rows_loop_length, range_length.
    replace (Z.to_nat (rows self) + c * Z.to_nat (rows self) + r
             - Z.to_nat (rows self))%nat
      with (c * Z.to_nat (rows self) + r)%nat by lia.
    rewrite IH by lia. f_equal. f_equal.
    symmetry. exact (Nat.iter_succ_r c right x).
Qed.

Lemma node_centers_length :
  length (node_centers self)
  = (Z.to_nat (columns self) * Z.to_nat (rows self))%nat.
Proof. unfold node_centers. by rewrite cols_loop_length, range_length. Qed.

(** The node in column [c] and row [r]: its coordinates are reached from
    the first center by [c] steps to the right and [r] steps down. *)
Lemma node_centers_lookup (c r : nat) :
  (c < Z.to_nat (columns self))%nat -> (r < Z.to_nat (rows self))%nat ->
  node_centers self !! (c * Z.to_nat (rows self) + r)%nat
  = Some (Nat.iter c right (xanchor self + radius self),
          Nat.iter r down (yanchor self - radius self)).
Proof.
  intros Hc Hr. unfold node_centers.
  apply cols_loop_lookup; [by rewrite range_length | done].
Qed.

End NodeCenters.

(** C1. For a layer with [rows >= 1] and [columns >= 1], [node_centers]
    yields exactly [rows * columns] pairs in column-major order: the
    first is [(xanchor + radius, yanchor - radius)]; inside a column the
    next pair keeps [x] and has [y] decreased by [2*radius + vspace];
    the first pair of the next column has [y] reset to
    [yanchor - radius] and [x] increased by [2*radius + hspace].  For
    [rows = 3] and [columns = 4] there are 12 pairs and the first three
    share their [x]. *)
Theorem node_centers_column_major (l : Layer) :
  (1 <= rows l)%Z -> (1 <= columns l)%Z ->
  length (node_centers l) = Z.to_nat (rows l * columns l)
  /\ node_centers l !! 0%nat
     = Some (xanchor l + radius l, yanchor l - radius l)
  /\ (forall c r : nat,
        (c < Z.to_nat (columns l))%nat -> (S r < Z.to_nat (rows l))%nat ->
        exists x y,
          node_centers l !! (c * Z.to_nat (rows l) + r)%nat = Some (x, y)
          /\ node_centers l !! (c * Z.to_nat (rows l) + S r)%nat
             = Some (x, y - (2 * radius l + vspace l)))
  /\ (forall c : nat,
        (S c < Z.to_nat (columns l))%nat ->
        exists x y,
          node_centers l !! (c * Z.to_nat (rows l))%nat = Some (x, y)
          /\ node_centers l !! (S c * Z.to_nat (rows l))%nat
             = Some (x + (2 * radius l + hspace l), yanchor l - radius l))
  /\ (rows l = 3%Z -> columns l = 4%Z ->
      length (node_centers l) = 12%nat
      /\ exists x y0 y1 y2,
           take 3 (node_centers l) = [(x, y0); (x, y1); (x, y2)]).
Proof.
  intros Hr Hc.
  assert (HR : (0 < Z.to_nat (rows l))%nat) by lia.
  assert (HC : (0 < Z.to_nat (columns l))%nat) by lia.
  split; [|split; [|split; [|split]]].
  - rewrite node_centers_length. lia.
  - exact (node_centers_lookup l 0 0 HC HR).
  - intros c r Hc' Hr'. eexists _, _. split.
    + apply node_centers_lookup; [done | lia].
    + by rewrite node_centers_lookup.
  - intros c Hc'. eexists _, _. split.
    + rewrite <- (Nat.add_0_r (c * _)). apply node_centers_lookup; [lia | done].
    + rewrite <- (Nat.add_0_r (S c * _)). by rewrite node_centers_lookup.
  - intros H3 H4. split; [rewrite node_centers_length, H3, H4; reflexivity|].
    unfold node_centers. rewrite H4. simpl. rewrite H3. simpl.
    by eexists _, _, _, _.
Qed.

Lemma node_centers_column_major_witness :
  length (node_centers layer_3x4) = 12%nat
  /\ exists x y0 y1 y2,
       take 3 (node_centers layer_3x4) = [(x, y0); (x, y1); (x, y2)].
Proof.
  apply (node_centers_column_major layer_3x4); simpl; (lia || reflexivity).
Defined.

(** ** Rectangle coordinates and alignment *)

Lemma vertical_align_eq (st : gmap nat Layer) (r0 r1 : nnetplot.ref)
    (ratio : Q) (l0 l1 : Layer) :
  st !! r0 = Some l0 -> st !! r1 = Some l1 ->
  vertical_align r0 r1 ratio st
  = Some (<[r1 := set_yanchor l1
                    (yanchor l0
                     - ratio * (height (rect_coords l1 0)
                                - height (rect_coords l0 0)))]> st).
Proof. intros H0 H1. unfold vertical_align. rewrite H0. simpl. by rewrite H1. Qed.

Lemma horizontal_align_eq (st : gmap nat Layer) (r0 r1 : nnetplot.ref)
    (spacing : Q) (l0 l1 : Layer) :
  st !! r0 = Some l0 -> st !! r1 = Some l1 ->
  horizontal_align r0 r1 spacing st
  = Some (<[r1 := set_xanchor l1 (xanchor l0 + spacing)]> st).
Proof. intros H0 H1. unfold horizontal_align. rewrite H0. simpl. by rewrite H1. Qed.

(** C2. [rect_coords(pad)] returns the corner
    [(xanchor - pad, yanchor + pad)], the width
    [2*radius*columns + 2*pad + (columns - 1)*hspace] and the height
    [-(2*radius*rows + 2*pad + (rows - 1)*vspace)].  It is computed from
    the fields the layer has at the call: called on the second layer
    after an alignment, it has the corner at the anchor the alignment
    assigned, with width and height as before. *)
Theorem rect_coords_current_fields (l : Layer) (pad : Q) :
  rect_coords l pad
  = {| xy := (xanchor l - pad, yanchor l + pad);
       width := 2 * radius l * inject_Z (columns l) + 2 * pad
                + inject_Z (columns l - 1) * hspace l;
       height := - (2 * radius l * inject_Z (rows l) + 2 * pad
                    + inject_Z (rows l - 1) * vspace l) |}
  /\ (forall (st : gmap nat Layer) (r0 r1 : nnetplot.ref) (ratio : Q) (l0 : Layer),
        st !! r0 = Some l0 -> st !! r1 = Some l ->
        exists st' l',
          vertical_align r0 r1 ratio st = Some st'
          /\ st' !! r1 = Some l'
          /\ rect_coords l' pad
             = {| xy := (xanchor l - pad,
                         yanchor l0
                         - ratio * (height (rect_coords l 0)
                                    - height (rect_coords l0 0))
                         + pad);
                  width := width (rect_coords l pad);
                  height := height (rect_coords l pad) |})
  /\ (forall (st : gmap nat Layer) (r0 r1 : nnetplot.ref) (spacing : Q) (l0 : Layer),
        st !! r0 = Some l0 -> st !! r1 = Some l ->
        exists st' l',
          horizontal_align r0 r1 spacing st = Some st'
          /\ st' !! r1 = Some l'
          /\ rect_coords l' pad
             = {| xy := (xanchor l0 + spacing - pad, yanchor l + pad);
                  width := width (rect_coords l pad);
                  height := height (rect_coords l pad) |}).
Proof.
  split; [reflexivity|]. split.
  - intros st r0 r1 ratio l0 H0 H1. eexists _, _.
    split; [by apply vertical_align_eq|].
    split; [apply lookup_insert_eq|]. reflexivity.
  - intros st r0 r1 spacing l0 H0 H1. eexists _, _.
    split; [by apply horizontal_align_eq|].
    split; [apply lookup_insert_eq|]. reflexivity.
Qed.

Lemma rect_coords_current_fields_witness :
  exists st' l',
    horizontal_align 0%nat 1%nat 1 store2 = Some st'
    /\ st' !! 1%nat = Some l'
    /\ rect_coords l' 0
       = {| xy := (xanchor layer_1x1 + 1 - 0, yanchor layer_12x1 + 0);
            width := width (rect_coords layer_12x1 0);
            height := height (rect_coords layer_12x1 0) |}.
Proof.
  apply (proj2 (proj2 (rect_coords_current_fields layer_12x1 0))
           store2 0%nat 1%nat 1 layer_1x1); reflexivity.
Defined.

(** C3. [vertical_align(layer0, layer1, ratio)] assigns to layer1 the
    anchor [y0 - ratio * (h1 - h0)], with [y0] the anchor of layer0 and
    [h0], [h1] the rectangle heights of the two layers before the call:
    layer1 is set off from layer0's anchor by [ratio * (h1 - h0)].
    With ratio 0 its anchor equals layer0's.  When the two rectangle
    heights are equal the two layers end with equal anchors, for every
    ratio and so for ratio 0.5. *)
Theorem vertical_align_offset (st : gmap nat Layer) (r0 r1 : nnetplot.ref)
    (ratio : Q) (l0 l1 : Layer) :
  st !! r0 = Some l0 -> st !! r1 = Some l1 ->
  exists st' l0' l1',
    vertical_align r0 r1 ratio st = Some st'
    /\ st' !! r0 = Some l0' /\ st' !! r1 = Some l1'
    /\ yanchor l1'
       = yanchor l0
         - ratio * (height (rect_coords l1 0) - height (rect_coords l0 0))
    /\ (ratio == 0 ->
        yanchor l1' == yanchor l0 /\ yanchor l1' == yanchor l0')
    /\ (height (rect_coords l1 0) == height (rect_coords l0 0) ->
        yanchor l1' == yanchor l0 /\ yanchor l1' == yanchor l0').
Proof.
  intros H0 H1.
  set (v := yanchor l0
            - ratio * (height (rect_coords l1 0) - height (rect_coords l0 0))).
  assert (Hl0 : exists l0', <[r1 := set_yanchor l1 v]> st !! r0 = Some l0'
                            /\ (yanchor l0' = v \/ yanchor l0' = yanchor l0)).
  { destruct (decide (r1 = r0)) as [->|Hne].
    - exists (set_yanchor l1 v). rewrite lookup_insert_eq. by split; [|left].
    - exists l0. rewrite lookup_insert_ne by done. by split; [|right]. }
  destruct Hl0 as (l0' & Hl0' & Hy0').
  exists (<[r1 := set_yanchor l1 v]> st), l0', (set_yanchor l1 v).
  split; [by apply vertical_align_eq|].
  split; [done|]. split; [apply lookup_insert_eq|].
  split; [reflexivity|].
  change (yanchor (set_yanchor l1 v)) with v.
  split.
  - intros Hr.
    assert (Hv : v == yanchor l0) by (unfold v; rewrite Hr; ring).
    split; [done|]. destruct Hy0' as [-> | ->]; [reflexivity | done].
  - intros Hh.
    assert (Hv : v == yanchor l0) by (unfold v; rewrite Hh; ring).
    split; [done|]. destruct Hy0' as [-> | ->]; [reflexivity | done].
Qed.

Lemma vertical_align_offset_witness :
  exists st' l0' l1',
    vertical_align 0%nat 1%nat 0.5 store_level = Some st'
    /\ st' !! 0%nat = Some l0' /\ st' !! 1%nat = Some l1'
    /\ yanchor l1' == yanchor layer_1x1 /\ yanchor l1' == yanchor l0'.
Proof.
  destruct (vertical_align_offset store_level 0%nat 1%nat 0.5
              layer_1x1 layer_1x1_low eq_refl eq_refl)
    as (st' & l0' & l1' & Heq & H0 & H1 & _ & _ & Hlevel).
  exists st', l0', l1'. repeat (split; [assumption|]).
  apply Hlevel. reflexivity.
Defined.

(** C9, as the code has it.  Each alignment function assigns one field
    of the object passed second and nothing else: every other object of
    the store is as before, the second object keeps all its fields but
    the assigned anchor, and the first object is unchanged whenever it
    is not the very object passed second. *)
Theorem align_mutates_second_only (st : gmap nat Layer)
    (r0 r1 : nnetplot.ref) (q : Q) (l0 l1 : Layer) :
  st !! r0 = Some l0 -> st !! r1 = Some l1 ->
  (exists st' l1',
     vertical_align r0 r1 q st = Some st'
     /\ st' !! r1 = Some l1'
     /\ (forall r, r <> r1 -> st' !! r = st !! r)
     /\ (r0 <> r1 -> st' !! r0 = Some l0)
     /\ rows l1' = rows l1 /\ columns l1' = columns l1
     /\ activation_str l1' = activation_str l1
     /\ activation l1' = activation l1 /\ special l1' = special l1
     /\ xanchor l1' = xanchor l1 /\ radius l1' = radius l1
     /\ vspace l1' = vspace l1 /\ hspace l1' = hspace l1)
  /\ (exists st' l1',
        horizontal_align r0 r1 q st = Some st'
        /\ st' !! r1 = Some l1'
        /\ (forall r, r <> r1 -> st' !! r = st !! r)
        /\ (r0 <> r1 -> st' !! r0 = Some l0)
        /\ rows l1' = rows l1 /\ columns l1' = columns l1
        /\ activation_str l1' = activation_str l1
        /\ activation l1' = activation l1 /\ special l1' = special l1
        /\ yanchor l1' = yanchor l1 /\ radius l1' = radius l1
        /\ vspace l1' = vspace l1 /\ hspace l1' = hspace l1).
Proof.
  intros H0 H1. split.
  - eexists _, _. split; [by apply vertical_align_eq|].
    split; [apply lookup_insert_eq|].
    split; [intros r Hr; by apply lookup_insert_ne|].
    split; [intros Hne; by rewrite lookup_insert_ne|].
    by repeat split.
  - eexists _, _. split; [by apply horizontal_align_eq|].
    split; [apply lookup_insert_eq|].
    split; [intros r Hr; by apply lookup_insert_ne|].
    split; [intros Hne; by rewrite lookup_insert_ne|].
    by repeat split.
Qed.

Lemma align_mutates_second_only_witness :
  exists st' l1',
    horizontal_align 0%nat 1%nat 1 store2 = Some st'
    /\ st' !! 1%nat = Some l1'
    /\ (forall r, r <> 1%nat -> st' !! r = store2 !! r)
    /\ (0%nat <> 1%nat -> st' !! 0%nat = Some layer_1x1)
    /\ rows l1' = rows layer_12x1 /\ columns l1' = columns layer_12x1
    /\ activation_str l1' = activation_str layer_12x1
    /\ activation l1' = activation layer_12x1
    /\ special l1' = special layer_12x1
    /\ yanchor l1' = yanchor layer_12x1 /\ radius l1' = radius layer_12x1
    /\ vspace l1' = vspace layer_12x1 /\ hspace l1' = hspace layer_12x1.
Proof.
  apply (proj2 (align_mutates_second_only store2 0%nat 1%nat 1
                  layer_1x1 layer_12x1 eq_refl eq_refl)).
Defined.

(** C9 as stated fails when both arguments are the same object:
    [horizontal_align(l, l, 1)] moves the anchor of [l], which is also
    the first layer. *)
Lemma horizontal_align_same_object_moves_layer0 :
  store2 !! 0%nat = Some layer_1x1
  /\ exists st' l0',
       horizontal_align 0%nat 0%nat 1 store2 = Some st'
       /\ st' !! 0%nat = Some l0'
       /\ ~ xanchor l0' == xanchor layer_1x1.
Proof.
  split; [reflexivity|].
  eexists _, _. split; [reflexivity|]. split; [reflexivity|].
  vm_compute. discriminate.
Qed.

(** ** Signs of the rectangle and degenerate grids *)

Lemma node_centers_empty (l : Layer) :
  (rows l <= 0)%Z \/ (columns l <= 0)%Z -> node_centers l = [].
Proof.
  intros H. apply length_zero_iff_nil. rewrite node_centers_length.
  destruct H; lia.
Qed.

Lemma inject_Z_ge_1 (n : Z) : (1 <= n)%Z -> 1 <= inject_Z n.
Proof. intros H. rewrite Zle_Qle in H. exact H. Qed.

Lemma inject_Z_pred_nonneg (n : Z) : (1 <= n)%Z -> 0 <= inject_Z (n - 1).
Proof.
  intros H. assert (H' : (0 <= n - 1)%Z) by lia.
  rewrite Zle_Qle in H'. exact H'.
Qed.

(** C5, as the code has it.  For a layer with [radius > 0], spacings
    [>= 0] and a padding [>= 0]: the rectangle height is [<= 0] when
    [rows >= 1] and the width is [> 0] when [columns >= 1]; zero or
    negative rows or columns give an empty [node_centers] sequence; and
    [rect_coords] is defined by the same formulas for every integer
    count, so that with [rows = 0] the height is [vspace - 2*pad]. *)
Theorem rect_signs_and_empty_grid (l : Layer) (pad : Q) :
  0 < radius l -> 0 <= vspace l -> 0 <= hspace l -> 0 <= pad ->
  ((1 <= rows l)%Z -> height (rect_coords l pad) <= 0)
  /\ ((1 <= columns l)%Z -> 0 < width (rect_coords l pad))
  /\ ((rows l <= 0)%Z \/ (columns l <= 0)%Z -> node_centers l = [])
  /\ (rows l = 0%Z -> height (rect_coords l pad) == vspace l - 2 * pad).
Proof.
  intros Hr Hv Hh Hp. split; [|split; [|split]].
  - intros Hrows. simpl.
    pose proof (inject_Z_ge_1 _ Hrows) as H1.
    pose proof (inject_Z_pred_nonneg _ Hrows) as H2.
    assert (0 <= 2 * radius l * inject_Z (rows l))
      by (apply Qmult_le_0_compat; lra).
    assert (0 <= inject_Z (rows l - 1) * vspace l)
      by (by apply Qmult_le_0_compat).
    lra.
  - intros Hcols. simpl.
    pose proof (inject_Z_ge_1 _ Hcols) as H1.
    pose proof (inject_Z_pred_nonneg _ Hcols) as H2.
    assert (0 < 2 * radius l * inject_Z (columns l))
      by (apply Qmult_lt_0_compat; lra).
    assert (0 <= inject_Z (columns l - 1) * hspace l)
      by (by apply Qmult_le_0_compat).
    lra.
  - apply node_centers_empty.
  - intros H0. cbn [rect_coords height]. rewrite H0.
    change (inject_Z 0) with 0. change (inject_Z (0 - 1)) with (- (1)). ring.
Qed.

Lemma rect_signs_and_empty_grid_witness :
  height (rect_coords layer_3x4 0) <= 0
  /\ 0 < width (rect_coords layer_3x4 0)
  /\ node_centers layer_0x1 = [].
Proof.
  split; [|split].
  - apply (rect_signs_and_empty_grid layer_3x4 0); vm_compute; congruence.
  - apply (rect_signs_and_empty_grid layer_3x4 0); vm_compute; congruence.
  - apply (rect_signs_and_empty_grid layer_0x1 0); vm_compute;
      (congruence || (left; congruence)).
Defined.

(** C5 as stated fails for [Layer(rows=0, columns=1)] with the default
    radius and spacings: no node is produced, but the rectangle has the
    positive height [vspace] and a non-zero area. *)
Lemma zero_rows_rect_not_degenerate :
  0 < radius layer_0x1 /\ 0 <= vspace layer_0x1 /\ 0 <= hspace layer_0x1
  /\ rows layer_0x1 = 0%Z
  /\ node_centers layer_0x1 = []
  /\ ~ height (rect_coords layer_0x1 0) <= 0
  /\ ~ width (rect_coords layer_0x1 0) * height (rect_coords layer_0x1 0) == 0.
Proof.
  repeat split; try (vm_compute; congruence).
  all: vm_compute; intros H; by apply H.
Qed.

(** ** Loops that emit one call per element *)

Lemma lookup_map {A B : Type} (f : A -> B) (l : list A) (i : nat) :
  map f l !! i = f <$> (l !! i).
Proof. revert i. induction l as [|a l IH]; intros [|i]; simpl; auto. Qed.

Lemma foldl_emit {A : Type} (g : A -> draw_call) (ps : list A) (ax : axis) :
  foldl (fun ax p => ax ++ [g p]) ax ps = ax ++ map g ps.
Proof.
  revert ax. induction ps as [|p ps IH]; intros ax; simpl.
  - by rewrite app_nil_r.
  - by rewrite IH, <- app_assoc.
Qed.

Lemma connect_loops_product (outs ins : list (Q * Q)) (ax : axis) :
  exists segs,
    connect_loops outs ins ax = ax ++ segs
    /\ length segs = (length outs * length ins)%nat
    /\ forall i j po pi,
         outs !! i = Some po -> ins !! j = Some pi ->
         segs !! (i * length ins + j)%nat
         = Some (PlotSegment [fst po; fst pi] [snd po; snd pi]).
Proof.
  unfold connect_loops. revert ax.
  induction outs as [|out outs IH]; intros ax.
  - exists []. simpl. split; [by rewrite app_nil_r|]. split; [done|].
    intros i j po pi H. by rewrite lookup_nil in H.
  - simpl. rewrite foldl_emit.
    destruct (IH (ax ++ map (fun inn => PlotSegment [fst out; fst inn]
                                                    [snd out; snd inn]) ins))
      as (segs & Heq & Hlen & Hlk).
    exists (map (fun inn => PlotSegment [fst out; fst inn] [snd out; snd inn]) ins
            ++ segs).
    split; [by rewrite Heq, <- app_assoc|].
    split; [by rewrite length_app, length_map, Hlen|].
    intros [|i] j po pi Ho Hi; simpl in *.
    + injection Ho as <-. pose proof (lookup_lt_Some _ _ _ Hi) as Hj.
      rewrite lookup_app_l by (by rewrite length_map).
      by rewrite lookup_map, Hi.
    + rewrite lookup_app_r by (rewrite length_map; lia).
      rewrite length_map.
      replace (length ins + i * length ins + j - length ins)%nat
        with (i * length ins + j)%nat by lia.
      by apply Hlk.
Qed.

(** ** Annotations *)

(** C8, as the code has it.  [annotate_nodes] pairs the annotations with
    the node centers positionally: it makes exactly
    [min(len(annotations), number of node centers)] calls, the [i]-th
    placing the [i]-th annotation at the [i]-th node center, and never
    raises.  The number of node centers is [rows * columns] when neither
    count is negative, and 0 as soon as one of them is zero or
    negative. *)
Theorem annotate_nodes_positional (l : Layer) (ax : axis)
    (annotations : list string) :
  exists calls,
    annotate_nodes l ax annotations = ax ++ calls
    /\ length calls = min (length annotations) (length (node_centers l))
    /\ Z.of_nat (length (node_centers l))
       = (Z.max 0 (rows l) * Z.max 0 (columns l))%Z
    /\ ((0 <= rows l)%Z -> (0 <= columns l)%Z ->
        Z.of_nat (length calls)
        = Z.min (Z.of_nat (length annotations)) (rows l * columns l))
    /\ (forall i txt c,
          annotations !! i = Some txt -> node_centers l !! i = Some c ->
          calls !! i = Some (Annotate txt c))
    /\ (forall i, is_Some (calls !! i) ->
          is_Some (annotations !! i) /\ is_Some (node_centers l !! i)).
Proof.
  exists (map (fun p => Annotate (fst p) (snd p))
              (zip annotations (node_centers l))).
  assert (Hlen : length (map (fun p : string * (Q * Q) => Annotate (fst p) (snd p))
                             (zip annotations (node_centers l)))
                 = min (length annotations) (length (node_centers l))).
  { by rewrite length_map, length_zip_with. }
  split; [apply foldl_emit|]. split; [exact Hlen|]. split; [|split; [|split]].
  - rewrite node_centers_length. lia.
  - intros Hr Hc. rewrite Hlen, node_centers_length. lia.
  - intros i txt c Ha Hc. rewrite lookup_map.
    assert (Hz : zip annotations (node_centers l) !! i = Some (txt, c)).
    { apply lookup_zip_with_Some. by exists txt, c. }
    by rewrite Hz.
  - intros i Hi. apply lookup_lt_is_Some in Hi. rewrite Hlen in Hi.
    split; apply lookup_lt_is_Some; lia.
Qed.

Lemma annotate_nodes_positional_witness :
  exists calls,
    annotate_nodes layer_3x1 [] ["a"; "b"]%string = [] ++ calls
    /\ Z.of_nat (length calls) = 2%Z.
Proof.
  destruct (annotate_nodes_positional layer_3x1 [] ["a"; "b"]%string)
    as (calls & Heq & _ & _ & Hmin & _).
  exists calls. split; [exact Heq|].
  apply Hmin; vm_compute; congruence.
Defined.

(** C8 as stated fails for [Layer(rows=-1, columns=-1)]: the layer has
    no node, so no call is made, while
    [min(len(annotations), rows * columns)] is 1. *)
Lemma annotate_nodes_negative_counts :
  annotate_nodes layer_neg [] ["a"%string] = []
  /\ Z.min (Z.of_nat (length ["a"%string])) (rows layer_neg * columns layer_neg)
     = 1%Z.
Proof. split; reflexivity. Qed.

(** ** Connectors *)

Lemma node_connections_lookup (l : Layer) (i : nat) (x y : Q) :
  node_centers l !! i = Some (x, y) ->
  inbound_node_connections l !! i = Some (x - 0.2 * radius l, y)
  /\ outbound_node_connections l !! i = Some (x + 0.2 * radius l, y).
Proof.
  intros H. unfold inbound_node_connections, outbound_node_connections.
  by rewrite !lookup_map, H.
Qed.

(** C4. [connect_nodes_to_nodes(layer0, layer1, axis)] makes one
    [axis.plot] call with a two-point segment for every pair of an
    outbound point of layer0 and an inbound point of layer1, and no
    other call: [n0 * n1] segments for layers of [n0] and [n1] nodes, 6
    for 2 and 3 nodes.  The segment of nodes [i] and [j], with centers
    [(x0, y0)] and [(x1, y1)], goes from [(x0 + 0.2*radius0, y0)] to
    [(x1 - 0.2*radius1, y1)]; these are the outbound and inbound points
    of the two nodes. *)
Theorem connect_nodes_to_nodes_product (layer0 layer1 : Layer) (ax : axis) :
  exists segs,
    connect_nodes_to_nodes layer0 layer1 ax = ax ++ segs
    /\ length segs
       = (length (node_centers layer0) * length (node_centers layer1))%nat
    /\ (forall i j x0 y0 x1 y1,
          node_centers layer0 !! i = Some (x0, y0) ->
          node_centers layer1 !! j = Some (x1, y1) ->
          segs !! (i * length (node_centers layer1) + j)%nat
          = Some (PlotSegment [x0 + 0.2 * radius layer0; x1 - 0.2 * radius layer1]
                              [y0; y1]))
    /\ (length (node_centers layer0) = 2%nat ->
        length (node_centers layer1) = 3%nat -> length segs = 6%nat)
    /\ (forall (l : Layer) i x y,
          node_centers l !! i = Some (x, y) ->
          inbound_node_connections l !! i = Some (x - 0.2 * radius l, y)
          /\ outbound_node_connections l !! i = Some (x + 0.2 * radius l, y)).
Proof.
  unfold connect_nodes_to_nodes.
  destruct (connect_loops_product (outbound_node_connections layer0)
              (inbound_node_connections layer1) ax) as (segs & Heq & Hlen & Hlk).
  assert (Hn0 : length (outbound_node_connections layer0)
                = length (node_centers layer0))
    by apply length_map.
  assert (Hn1 : length (inbound_node_connections layer1)
                = length (node_centers layer1))
    by apply length_map.
  rewrite Hn0, Hn1 in Hlen. rewrite Hn1 in Hlk.
  exists segs. split; [exact Heq|]. split; [exact Hlen|].
  split; [|split].
  - intros i j x0 y0 x1 y1 H0 H1.
    apply node_connections_lookup in H0 as [_ H0].
    apply node_connections_lookup in H1 as [H1 _].
    by rewrite (Hlk i j _ _ H0 H1).
  - intros H2 H3. by rewrite Hlen, H2, H3.
  - apply node_connections_lookup.
Qed.

Lemma connect_nodes_to_nodes_product_witness :
  exists segs,
    connect_nodes_to_nodes layer_2x1 layer_3x1 [] = [] ++ segs
    /\ length segs = 6%nat.
Proof.
  destruct (connect_nodes_to_nodes_product layer_2x1 layer_3x1 [])
    as (segs & Heq & _ & _ & H6 & _).
  exists segs. split; [exact Heq|]. apply H6; reflexivity.
Defined.

(** ** Activation dispatch *)

Section Dispatch.

Variable np_exp : Q -> Q.

Lemma dispacth_activation_callable (s : pyval) :
  callable s = true -> dispacth_activation np_exp s = s.
Proof. intros H. unfold dispacth_activation. by rewrite H. Qed.

Lemma dispacth_activation_result (s : pyval) :
  callable (dispacth_activation np_exp s) = true
  \/ dispacth_activation np_exp s = PyNone.
Proof.
  unfold dispacth_activation.
  destruct (callable s) eqn:Hc; [by left; rewrite Hc|].
  repeat (match goal with
          | |- context [if ?b then _ else _] => destruct b
          end; [by left|]).
  by right.
Qed.

Lemma py_eq_str_false (s : pyval) (name : string) :
  s <> PyStr name -> py_eq_str s name = false.
Proof.
  intros H. destruct s as [| | |t|]; simpl; try done.
  apply String.eqb_neq. congruence.
Qed.

End Dispatch.

(** C7. [dispacth_activation] returns a callable argument unchanged,
    maps "relu", "sigmoid" and "linear" to the functions of these names,
    and returns [None] for every other argument; it never raises. *)
Theorem dispacth_activation_cases (np_exp : Q -> Q) :
  (forall s, callable s = true -> dispacth_activation np_exp s = s)
  /\ dispacth_activation np_exp (PyStr "relu") = PyCallable relu
  /\ dispacth_activation np_exp (PyStr "sigmoid") = PyCallable (sigmoid np_exp)
  /\ dispacth_activation np_exp (PyStr "linear") = PyCallable linear
  /\ (forall s,
        callable s = false ->
        s <> PyStr "relu" -> s <> PyStr "sigmoid" -> s <> PyStr "linear" ->
        dispacth_activation np_exp s = PyNone).
Proof.
  split; [apply dispacth_activation_callable|].
  repeat (split; [reflexivity|]).
  intros s Hc H1 H2 H3. unfold dispacth_activation.
  by rewrite Hc, !py_eq_str_false.
Qed.

Lemma dispacth_activation_cases_witness :
  dispacth_activation (fun _ => 1) (PyStr "tanh") = PyNone
  /\ dispacth_activation (fun _ => 1) (PyCallable relu) = PyCallable relu.
Proof.
  pose proof (dispacth_activation_cases (fun _ => 1)) as (Hc & _ & _ & _ & Hn).
  split.
  - apply Hn; [reflexivity | discriminate | discriminate | discriminate].
  - apply Hc. reflexivity.
Defined.

(** C10. [dispacth_activation] is idempotent, so the node that
    [Layer.draw_nodes] builds for a node center, whose constructor
    dispatches the activation the layer's constructor had already
    dispatched, holds the activation of the layer. *)
Theorem dispacth_activation_idempotent (np_exp : Q -> Q) :
  (forall s,
     dispacth_activation np_exp (dispacth_activation np_exp s)
     = dispacth_activation np_exp s)
  /\ (forall rows columns s special xanchor yanchor radius vspace hspace c,
        node_activation
          (draw_nodes_node np_exp
             (Layer_init np_exp rows columns s special
                         xanchor yanchor radius vspace hspace) c)
        = activation (Layer_init np_exp rows columns s special
                                 xanchor yanchor radius vspace hspace)
        /\ activation (Layer_init np_exp rows columns s special
                                  xanchor yanchor radius vspace hspace)
           = dispacth_activation np_exp s).
Proof.
  assert (Hidem : forall s,
             dispacth_activation np_exp (dispacth_activation np_exp s)
             = dispacth_activation np_exp s).
  { intros s. destruct (dispacth_activation_result np_exp s) as [H | H].
    - by apply dispacth_activation_callable.
    - by rewrite H. }
  split; [exact Hidem|].
  intros. split; [apply Hidem | reflexivity].
Qed.

(** ** Sampling an activation *)

Lemma range_lookup (n : Z) (i : nat) :
  (i < Z.to_nat n)%nat -> range n !! i = Some (Z.of_nat i).
Proof.
  intros Hi. unfold range. rewrite lookup_map.
  by rewrite lookup_seq_lt.
Qed.

Lemma np_linspace_num_length (start stop : Q) (num : nat) :
  length (np_linspace_num start stop num) = num.
Proof.
  unfold np_linspace_num. by rewrite length_map, range_length, Nat2Z.id.
Qed.

Lemma np_linspace_num_lookup (start stop : Q) (num i : nat) :
  (i < num)%nat ->
  np_linspace_num start stop num !! i
  = Some (inject_Z (Z.of_nat i)
          * ((stop - start) / inject_Z (Z.of_nat num - 1)) + start).
Proof.
  intros Hi. unfold np_linspace_num.
  rewrite lookup_map, range_lookup by (by rewrite Nat2Z.id).
  reflexivity.
Qed.

Lemma list_comp_callable (f : activation_fn) (x y radius : Q) (X : list Q) :
  list_comp (fun xi => rbind (py_call (PyCallable f) (xi - x) y radius)
                             (fun a => Ok (y + a))) X
  = Ok (map (fun xi => y + f (xi - x) y radius) X).
Proof.
  induction X as [|xi X IH]; [done|].
  cbn [list_comp]. rewrite IH. reflexivity.
Qed.

Lemma make_node_data_callable (x y radius : Q) (f : activation_fn) :
  make_node_data x y radius (PyCallable f)
  = Ok (np_linspace (x - radius) (x + radius),
        map (fun xi => y + f (xi - x) y radius)
            (np_linspace (x - radius) (x + radius))).
Proof. unfold make_node_data. cbv zeta. by rewrite list_comp_callable. Qed.

Lemma np_linspace_within (x r : Q) (i : nat) (xi : Q) :
  0 <= r ->
  np_linspace (x - r) (x + r) !! i = Some xi ->
  x - r <= xi /\ xi <= x + r.
Proof.
  intros Hr Hi. unfold np_linspace in Hi.
  pose proof (lookup_lt_Some _ _ _ Hi) as Hlt.
  rewrite np_linspace_num_length in Hlt.
  rewrite np_linspace_num_lookup in Hi by done. injection Hi as <-.
  change (inject_Z (Z.of_nat 50 - 1)) with 49.
  assert (Hk0 : 0 <= inject_Z (Z.of_nat i)).
  { assert (H : (0 <= Z.of_nat i)%Z) by lia. rewrite Zle_Qle in H. exact H. }
  assert (Hk1 : inject_Z (Z.of_nat i) <= 49).
  { assert (H : (Z.of_nat i <= 49)%Z) by lia. rewrite Zle_Qle in H. exact H. }
  assert (H49 : 49 * ((x + r - (x - r)) / 49) == x + r - (x - r)) by field.
  assert (Hd : 0 <= (x + r - (x - r)) / 49).
  { apply Qle_shift_div_l; lra. }
  set (k := inject_Z (Z.of_nat i)) in *.
  set (d := (x + r - (x - r)) / 49) in *.
  assert (Hkd0 : 0 <= k * d) by (by apply Qmult_le_0_compat).
  assert (Hkd1 : k * d <= 49 * d) by (by apply Qmult_le_compat_r).
  clearbody k d. split; lra.
Qed.

(** C6, as the code has it.  For a radius [r > 0] and a callable [f],
    [make_node_data(x, y, r, f)] returns 50 sample positions, those of
    [np.linspace(x - r, x + r)], and 50 values: the positions start at
    [x - r], end at [x + r], never decrease and all lie between
    [x - r] and [x + r], and the [i]-th value is [y + f(xi - x, y, r)]
    for the [i]-th position [xi]. *)
Theorem make_node_data_samples (x y r : Q) (f : activation_fn) :
  0 < r ->
  exists X Y,
    make_node_data x y r (PyCallable f) = Ok (X, Y)
    /\ X = np_linspace (x - r) (x + r)
    /\ length X = 50%nat /\ length Y = 50%nat
    /\ (exists first last,
          X !! 0%nat = Some first /\ X !! 49%nat = Some last
          /\ first == x - r /\ last == x + r)
    /\ (forall i a b, X !! i = Some a -> X !! S i = Some b -> a <= b)
    /\ (forall i xi, X !! i = Some xi -> x - r <= xi /\ xi <= x + r)
    /\ (forall i xi, X !! i = Some xi -> Y !! i = Some (y + f (xi - x) y r)).
Proof.
  intros Hr. eexists _, _. split; [apply make_node_data_callable|].
  split; [reflexivity|].
  split; [apply np_linspace_num_length|].
  split; [unfold np_linspace; by rewrite length_map, np_linspace_num_length|].
  split; [|split; [|split]].
  - unfold np_linspace. eexists _, _.
    split; [apply np_linspace_num_lookup; lia|].
    split; [apply np_linspace_num_lookup; lia|].
    change (inject_Z (Z.of_nat 50 - 1)) with 49.
    change (inject_Z (Z.of_nat 0)) with 0.
    change (inject_Z (Z.of_nat 49)) with 49.
    split; field.
  - unfold np_linspace. intros i a b Ha Hb.
    pose proof (lookup_lt_Some _ _ _ Hb) as Hi.
    rewrite np_linspace_num_length in Hi.
    rewrite np_linspace_num_lookup in Ha by lia.
    rewrite np_linspace_num_lookup in Hb by lia.
    injection Ha as <-. injection Hb as <-.
    change (inject_Z (Z.of_nat 50 - 1)) with 49.
    rewrite Nat2Z.inj_succ. unfold Z.succ. rewrite inject_Z_plus.
    change (inject_Z 1) with 1.
    assert (Hd : inject_Z (Z.of_nat i) * ((x + r - (x - r)) / 49) + (x - r)
                 + 2 * r / 49
                 == (inject_Z (Z.of_nat i) + 1) * ((x + r - (x - r)) / 49)
                    + (x - r)) by field.
    assert (0 < 2 * r / 49).
    { apply Qlt_shift_div_l; lra. }
    rewrite <- Hd. lra.
  - intros i xi Hxi. apply (np_linspace_within x r i xi); [lra | exact Hxi].
  - intros i xi Hxi. by rewrite lookup_map, Hxi.
Qed.

Lemma make_node_data_samples_witness :
  exists X Y,
    make_node_data 0 0 0.2 (PyCallable linear) = Ok (X, Y)
    /\ length X = 50%nat /\ length Y = 50%nat.
Proof.
  assert (Hr : 0 < 0.2) by reflexivity.
  destruct (make_node_data_samples 0 0 0.2 linear Hr)
    as (X & Y & Heq & _ & HX & HY & _).
  by exists X, Y.
Defined.

Module Binary64Rounding.

Import PrimFloat.
Local Open Scope float_scope.

(** C6 as stated fails in the arithmetic of the code.  With center
    [1e17] and radius [1 > 0] the two end points [x - r] and [x + r]
    round to [1e17], so the 50 positions are all equal and do not
    increase; with center [0] and radius [0.2] the first two gaps
    between positions differ, so the positions are not evenly
    spaced. *)
#[warnings="-inexact-float"] Lemma make_node_data_binary64_rounding :
  (0 <? 1) = true
  /\ fst (binary64.make_node_data 1e17 0 1 binary64.linear)
     = repeat 1e17 50%nat
  /\ (0 <? 0.2) = true
  /\ exists a b c,
       take 3 (fst (binary64.make_node_data 0 0 0.2 binary64.linear))
       = [a; b; c]
       /\ (b - a =? c - b) = false.
Proof.
  split; [reflexivity|]. split; [vm_compute; reflexivity|].
  split; [reflexivity|].
  eexists _, _, _. split; [vm_compute; reflexivity|]. vm_compute. reflexivity.
Qed.

End Binary64Rounding.

(** * Further properties of the code *)

(** ** The named activations *)

Lemma relu_neg (x y r : Q) : x <= 0 -> relu x y r = 0 - r / 4.
Proof.
  intros H. unfold relu. apply Qle_bool_iff in H. by rewrite H.
Qed.

Lemma relu_pos (x y r : Q) : 0 < x -> relu x y r = x - r / 4.
Proof.
  intros H. unfold relu. destruct (Qle_bool x 0) eqn:E; [|done].
  apply Qle_bool_iff in E. lra.
Qed.

(** X1. [relu] is constant on [x <= 0], where it takes its least value
    [-radius/4], and it never decreases when [x] grows; its middle
    argument plays no role. *)
Theorem relu_flat_then_increasing (x1 x2 y1 y2 r : Q) :
  x1 <= x2 ->
  relu x1 y1 r <= relu x2 y2 r
  /\ relu 0 y2 r <= relu x1 y1 r
  /\ relu 0 y2 r == - (r / 4)
  /\ (x2 <= 0 -> relu x1 y1 r = relu x2 y2 r).
Proof.
  intros H12.
  rewrite (relu_neg 0 y2 r) by lra.
  destruct (Qlt_le_dec 0 x1) as [H1 | H1];
    destruct (Qlt_le_dec 0 x2) as [H2 | H2];
    repeat match goal with
           | H : 0 < ?x |- context [relu ?x ?y r] => rewrite (relu_pos x y r H)
           | H : ?x <= 0 |- context [relu ?x ?y r] => rewrite (relu_neg x y r H)
           end;
    repeat split; try lra; try (intros; lra); try done.
Qed.

Lemma relu_flat_then_increasing_witness :
  relu (-3) 0 0.2 = relu (-1) 7 0.2.
Proof.
  assert (H : -3 <= -1) by (vm_compute; discriminate).
  apply (relu_flat_then_increasing (-3) (-1) 0 7 0.2 H).
  vm_compute; discriminate.
Defined.

(** X2. When the exponential is not negative, as [np.exp] is, and
    [radius >= 0], [sigmoid] stays between [-radius/2] and
    [radius/2], both included. *)
Theorem sigmoid_bounded (np_exp : Q -> Q) (x y r : Q) :
  (forall z, 0 <= np_exp z) -> 0 <= r ->
  - (r / 2) <= sigmoid np_exp x y r /\ sigmoid np_exp x y r <= r / 2.
Proof.
  intros Hexp Hr. unfold sigmoid.
  pose proof (Hexp (- r * 100 * x)) as He.
  set (e := np_exp (- r * 100 * x)) in *.
  assert (H0 : 0 <= r / (1 + e)).
  { apply Qle_shift_div_l; lra. }
  assert (H1 : r / (1 + e) <= r).
  { apply Qle_shift_div_r; [lra|].
    assert (0 <= r * e) by (apply Qmult_le_0_compat; lra). lra. }
  assert (Hh : r == r / 2 + r / 2) by field.
  set (q := r / (1 + e)) in *. set (h := r / 2) in *. clearbody q e h.
  split; lra.
Qed.

Lemma sigmoid_bounded_witness :
  - (0.2 / 2) <= sigmoid (fun _ => 1) 3 0 0.2
  /\ sigmoid (fun _ => 1) 3 0 0.2 <= 0.2 / 2.
Proof.
  apply (sigmoid_bounded (fun _ => 1) 3 0 0.2); intros; vm_compute; discriminate.
Defined.

(** ** Sampling: errors and bounds *)

Lemma make_node_data_not_callable (x y r : Q) (activation : pyval) :
  callable activation = false ->
  make_node_data x y r activation = Raise TypeError.
Proof. destruct activation as [| | | |f]; try discriminate; reflexivity. Qed.

(** X3. [make_node_data] raises [TypeError] whenever the activation
    is not callable ([None], a string, a number, a bool), whatever the
    center and the radius: the first of the 50 samples already calls
    it. *)
Theorem make_node_data_not_callable_raises (x y r : Q) (activation : pyval) :
  callable activation = false ->
  make_node_data x y r activation = Raise TypeError.
Proof. apply make_node_data_not_callable. Qed.

Lemma make_node_data_not_callable_raises_witness :
  make_node_data 0 0 0.2 PyNone = Raise TypeError.
Proof.
  apply (make_node_data_not_callable_raises 0 0 0.2 PyNone). reflexivity.
Defined.

(** ** Drawing the nodes of a layer *)

Section DrawNodes.

Variable np_exp : Q -> Q.
Variable self : Layer.

Lemma Node_draw_special (c : Q * Q) (ax : axis) :
  truthy (special self) = true ->
  Node_draw (draw_nodes_node np_exp self c) ax
  = Ok (ax ++ [AddCircle c (radius self)]).
Proof.
  intros Hs. unfold Node_draw. cbn [draw_nodes_node Node_init node_special
    node_x node_y node_radius node_activation].
  rewrite Hs. cbn [negb]. by destruct c.
Qed.

Lemma Node_draw_curve (c : Q * Q) (ax : axis) (f : activation_fn) :
  truthy (special self) = false ->
  dispacth_activation np_exp (activation self) = PyCallable f ->
  Node_draw (draw_nodes_node np_exp self c) ax
  = Ok (ax ++ [AddCircle c (radius self);
               PlotCurve (np_linspace (fst c - radius self) (fst c + radius self))
                 (map (fun xi => snd c + f (xi - fst c) (snd c) (radius self))
                    (np_linspace (fst c - radius self) (fst c + radius self)))]).
Proof.
  intros Hs Hf. unfold Node_draw. cbn [draw_nodes_node Node_init node_special
    node_x node_y node_radius node_activation].
  rewrite Hs, Hf, make_node_data_callable. cbn [negb rbind fst snd].
  rewrite <- app_assoc. by destruct c.
Qed.

Lemma Node_draw_raises (c : Q * Q) (ax : axis) :
  truthy (special self) = false ->
  callable (dispacth_activation np_exp (activation self)) = false ->
  Node_draw (draw_nodes_node np_exp self c) ax = Raise TypeError.
Proof.
  intros Hs Hc. unfold Node_draw. cbn [draw_nodes_node Node_init node_special
    node_x node_y node_radius node_activation].
  rewrite Hs. cbn [negb].
  by rewrite make_node_data_not_callable.
Qed.

Lemma draw_nodes_loop_special (cs : list (Q * Q)) (ax : axis) :
  truthy (special self) = true ->
  draw_nodes_loop np_exp self cs ax
  = Ok (ax ++ map (fun c => AddCircle c (radius self)) cs).
Proof.
  intros Hs. revert ax. induction cs as [|c cs IH]; intros ax.
  - simpl. by rewrite app_nil_r.
  - cbn [draw_nodes_loop]. rewrite Node_draw_special by done.
    cbn [rbind]. rewrite IH. by rewrite <- app_assoc.
Qed.

Lemma draw_nodes_loop_curves (cs : list (Q * Q)) (ax : axis)
    (f : activation_fn) :
  truthy (special self) = false ->
  dispacth_activation np_exp (activation self) = PyCallable f ->
  exists calls,
    draw_nodes_loop np_exp self cs ax = Ok (ax ++ calls)
    /\ length calls = (2 * length cs)%nat
    /\ forall i c, cs !! i = Some c ->
         calls !! (2 * i)%nat = Some (AddCircle c (radius self))
         /\ calls !! (2 * i + 1)%nat
            = Some (PlotCurve
                      (np_linspace (fst c - radius self) (fst c + radius self))
                      (map (fun xi => snd c + f (xi - fst c) (snd c) (radius self))
                         (np_linspace (fst c - radius self)
                                      (fst c + radius self)))).
Proof.
  intros Hs Hf. revert ax. induction cs as [|c cs IH]; intros ax.
  - exists []. simpl. split; [by rewrite app_nil_r|]. split; [done|].
    intros i c H. by rewrite lookup_nil in H.
  - cbn [draw_nodes_loop]. rewrite (Node_draw_curve c ax f Hs Hf).
    cbn [rbind].
    match goal with
    | |- context [draw_nodes_loop _ _ _ (ax ++ ?two)] =>
        destruct (IH (ax ++ two)) as (calls & Heq & Hlen & Hlk);
        exists (two ++ calls)
    end.
    split; [by rewrite Heq, <- app_assoc|].
    split; [simpl; rewrite Hlen; lia|].
    intros [|i] c' Hc'.
    + injection Hc' as <-. by split.
    + simpl in Hc'. destruct (Hlk i c' Hc') as [H0 H1].
      replace (2 * S i)%nat with (S (S (2 * i))) by lia.
      replace (S (S (2 * i)) + 1)%nat with (S (S (2 * i + 1))) by lia.
      by split.
Qed.

End DrawNodes.

(** X5. On a layer whose [special] is truthy (True, "input",
    "output", ...) [draw_nodes] never raises, whatever the activation
    is, and draws exactly one circle per node center, in the order of
    [node_centers], with the radius of the layer. *)
Theorem draw_nodes_special_layer (np_exp : Q -> Q) (l : Layer) (ax : axis) :
  truthy (special l) = true ->
  draw_nodes np_exp l ax
  = Ok (ax ++ map (fun c => AddCircle c (radius l)) (node_centers l)).
Proof. intros Hs. unfold draw_nodes. by apply draw_nodes_loop_special. Qed.

Lemma draw_nodes_special_layer_witness :
  draw_nodes (fun _ => 1) layer_input []
  = Ok ([] ++ map (fun c => AddCircle c (radius layer_input))
                  (node_centers layer_input)).
Proof.
  apply (draw_nodes_special_layer (fun _ => 1) layer_input []). reflexivity.
Defined.

(** X6. On a layer that is not special and whose activation is a
    callable [f], [draw_nodes] makes two calls per node center, in the
    order of [node_centers]: the circle of the node, then the curve of
    [f] sampled across the node's horizontal diameter. *)
Theorem draw_nodes_circle_then_curve (np_exp : Q -> Q) (l : Layer) (ax : axis)
    (f : activation_fn) :
  truthy (special l) = false ->
  dispacth_activation np_exp (activation l) = PyCallable f ->
  exists calls,
    draw_nodes np_exp l ax = Ok (ax ++ calls)
    /\ length calls = (2 * length (node_centers l))%nat
    /\ forall i c, node_centers l !! i = Some c ->
         calls !! (2 * i)%nat = Some (AddCircle c (radius l))
         /\ calls !! (2 * i + 1)%nat
            = Some (PlotCurve
                      (np_linspace (fst c - radius l) (fst c + radius l))
                      (map (fun xi => snd c + f (xi - fst c) (snd c) (radius l))
                         (np_linspace (fst c - radius l) (fst c + radius l)))).
Proof. intros Hs Hf. unfold draw_nodes. by apply draw_nodes_loop_curves. Qed.

Lemma draw_nodes_circle_then_curve_witness :
  exists calls,
    draw_nodes (fun _ => 1) layer_relu [] = Ok ([] ++ calls)
    /\ length calls = (2 * length (node_centers layer_relu))%nat.
Proof.
  destruct (draw_nodes_circle_then_curve (fun _ => 1) layer_relu [] relu
              eq_refl eq_refl) as (calls & Heq & Hlen & _).
  by exists calls.
Defined.

(** X7. On a layer that is not special and whose activation does not
    dispatch to a callable (the default [activation=None], or an
    unknown name), [draw_nodes] raises [TypeError] as soon as the layer
    has a node; with zero or negative rows or columns it returns
    without a call. *)
Theorem draw_nodes_without_activation (np_exp : Q -> Q) (l : Layer) (ax : axis) :
  truthy (special l) = false ->
  callable (dispacth_activation np_exp (activation l)) = false ->
  ((1 <= rows l)%Z -> (1 <= columns l)%Z ->
   draw_nodes np_exp l ax = Raise TypeError)
  /\ ((rows l <= 0)%Z \/ (columns l <= 0)%Z -> draw_nodes np_exp l ax = Ok ax).
Proof.
  intros Hs Hc. unfold draw_nodes. split.
  - intros Hr Hcol.
    destruct (node_centers l) as [|c cs] eqn:E.
    + pose proof (node_centers_length l) as Hlen. rewrite E in Hlen.
      simpl in Hlen. lia.
    + cbn [draw_nodes_loop]. by rewrite Node_draw_raises.
  - intros H. by rewrite (node_centers_empty l H).
Qed.

Lemma draw_nodes_without_activation_witness :
  draw_nodes (fun _ => 1) layer_1x1 [] = Raise TypeError
  /\ draw_nodes (fun _ => 1) layer_0x1 [] = Ok [].
Proof.
  split.
  - apply (draw_nodes_without_activation (fun _ => 1) layer_1x1 []);
      (reflexivity || (vm_compute; discriminate)).
  - apply (draw_nodes_without_activation (fun _ => 1) layer_0x1 []);
      try reflexivity. left. vm_compute; discriminate.
Defined.

(** ** Connection points of the rectangle *)



(** X9. When the rectangle has a height [<= 0] and the spread is
    between 0 and 1, both connection heights lie on the edge of the
    rectangle: not above its top [yanchor + pad] and not below its
    bottom, the first one at or above the second. *)
Theorem rect_connections_on_edge (l : Layer) (pad width_ : Q) :
  height (rect_coords l pad) <= 0 -> 0 <= width_ -> width_ <= 1 ->
  forall p, p ∈ inbound_rect_connections l pad width_
            \/ p ∈ outbound_rect_connections l pad width_ ->
    yanchor l + pad + height (rect_coords l pad) <= snd p
    /\ snd p <= yanchor l + pad.
Proof.
  intros Hh Hw0 Hw1 p Hp.
  set (h := height (rect_coords l pad)) in *.
  assert (Hp0 : width_ * h <= 0).
  { assert (E : width_ * h == - (width_ * - h)) by ring. rewrite E.
    assert (0 <= width_ * - h) by (apply Qmult_le_0_compat; lra). lra. }
  assert (Hp1 : h <= width_ * h).
  { assert (E : width_ * h == h + (1 - width_) * - h) by ring. rewrite E.
    assert (0 <= (1 - width_) * - h) by (apply Qmult_le_0_compat; lra). lra. }
  assert (E1 : yanchor l + pad + (0.5 - width_ / 2) * h
               == yanchor l + pad + (1 # 2) * h - (1 # 2) * (width_ * h))
    by field.
  assert (E2 : yanchor l + pad + (0.5 + width_ / 2) * h
               == yanchor l + pad + (1 # 2) * h + (1 # 2) * (width_ * h))
    by field.
  assert (Hsnd : snd p = yanchor l + pad + (0.5 - width_ / 2) * h
                 \/ snd p = yanchor l + pad + (0.5 + width_ / 2) * h).
  { unfold inbound_rect_connections, outbound_rect_connections in Hp.
    cbv zeta in Hp. fold h in Hp.
    destruct Hp as [Hp | Hp];
      apply elem_of_cons in Hp as [-> | Hp]; [by left| |by left|];
      apply list_elem_of_singleton in Hp as ->; by right. }
  set (q := width_ * h) in *. clearbody q h.
  destruct Hsnd as [-> | ->]; [rewrite E1 | rewrite E2]; split; lra.
Qed.

Lemma rect_connections_on_edge_witness :
  yanchor layer_3x4 + 0 + height (rect_coords layer_3x4 0)
  <= snd (xanchor layer_3x4 - 0,
          yanchor layer_3x4 + 0
          + (0.5 - 0.1 / 2) * height (rect_coords layer_3x4 0))
  /\ snd (xanchor layer_3x4 - 0,
          yanchor layer_3x4 + 0
          + (0.5 - 0.1 / 2) * height (rect_coords layer_3x4 0))
     <= yanchor layer_3x4 + 0.
Proof.
  apply (rect_connections_on_edge layer_3x4 0 0.1);
    try (vm_compute; discriminate).
  left. apply list_elem_of_here.
Defined.

(** ** The connectors that involve a rectangle *)

(** X10. [connect_nodes_to_rect] draws two segments for each node of
    layer0, from its outbound point to the two inbound points of the
    rectangle of layer1, and [connect_rect_to_nodes] draws, for each
    of the two outbound points of the rectangle of layer0, one segment
    to the inbound point of each node of layer1: [2 * n] segments for
    [n] nodes on the node side, none when that layer has no node. *)
Theorem connect_nodes_and_rect (layer0 layer1 : Layer) (ax : axis)
    (pad width_ : Q) :
  (exists segs,
     connect_nodes_to_rect layer0 layer1 ax pad width_ = ax ++ segs
     /\ length segs = (length (node_centers layer0) * 2)%nat
     /\ forall i j c p,
          node_centers layer0 !! i = Some c ->
          inbound_rect_connections layer1 pad width_ !! j = Some p ->
          segs !! (i * 2 + j)%nat
          = Some (PlotSegment [fst c + 0.2 * radius layer0; fst p]
                              [snd c; snd p]))
  /\ (exists segs,
        connect_rect_to_nodes layer0 layer1 ax pad width_ = ax ++ segs
        /\ length segs = (2 * length (node_centers layer1))%nat
        /\ forall i j p c,
             outbound_rect_connections layer0 pad width_ !! i = Some p ->
             node_centers layer1 !! j = Some c ->
             segs !! (i * length (node_centers layer1) + j)%nat
             = Some (PlotSegment [fst p; fst c - 0.2 * radius layer1]
                                 [snd p; snd c])).
Proof.
  split.
  - unfold connect_nodes_to_rect.
    destruct (connect_loops_product (outbound_node_connections layer0)
                (inbound_rect_connections layer1 pad width_) ax)
      as (segs & Heq & Hlen & Hlk).
    exists segs. split; [exact Heq|]. split.
    + rewrite Hlen. unfold outbound_node_connections.
      by rewrite length_map.
    + intros i j [cx cy] p Hc Hp.
      apply node_connections_lookup in Hc as [_ Hc].
      exact (Hlk i j _ _ Hc Hp).
  - unfold connect_rect_to_nodes.
    destruct (connect_loops_product (outbound_rect_connections layer0 pad width_)
                (inbound_node_connections layer1) ax)
      as (segs & Heq & Hlen & Hlk).
    assert (Hn : length (inbound_node_connections layer1)
                 = length (node_centers layer1)) by apply length_map.
    rewrite Hn in Hlen, Hlk.
    exists segs. split; [exact Heq|]. split; [exact Hlen|].
    intros i j p [cx cy] Hp Hc.
    apply node_connections_lookup in Hc as [Hc _].
    exact (Hlk i j _ _ Hp Hc).
Qed.

Lemma connect_nodes_and_rect_witness :
  exists segs c p,
    connect_nodes_to_rect layer_2x1 layer_3x1 [] 0 0.1 = [] ++ segs
    /\ segs !! (0 * 2 + 0)%nat
       = Some (PlotSegment [fst c + 0.2 * radius layer_2x1; fst p]
                           [snd c; snd p]).
Proof.
  destruct (proj1 (connect_nodes_and_rect layer_2x1 layer_3x1 [] 0 0.1))
    as (segs & Heq & _ & Hlk).
  eexists segs, _, _. split; [exact Heq|].
  apply (Hlk 0%nat 0%nat); reflexivity.
Defined.

(** X11. [connect_rect_to_rect] draws exactly four segments whatever
    the rows and columns of the two layers are, each from the right
    edge of the rectangle of layer0 to the left edge of the rectangle
    of layer1. *)
Theorem connect_rect_to_rect_four (layer0 layer1 : Layer) (ax : axis)
    (pad_out width_out pad_in width_in : Q) :
  exists segs,
    connect_rect_to_rect layer0 layer1 ax pad_out width_out pad_in width_in
    = ax ++ segs
    /\ length segs = 4%nat
    /\ forall s, s ∈ segs ->
         exists yout yin,
           s = PlotSegment
                 [xanchor layer0 - pad_out + width (rect_coords layer0 pad_out);
                  xanchor layer1 - pad_in]
                 [yout; yin].
Proof.
  eexists. split; [unfold connect_rect_to_rect, connect_loops; simpl;
                   rewrite <- !app_assoc; reflexivity|].
  split; [reflexivity|].
  intros s Hs. simpl in Hs.
  repeat (apply elem_of_cons in Hs as [-> | Hs]; [by eexists _, _|]).
  by apply elem_of_nil in Hs.
Qed.

Lemma connect_rect_to_rect_four_witness :
  exists segs,
    connect_rect_to_rect layer_2x1 layer_3x1 [] 0 0.1 0 0.1 = [] ++ segs
    /\ length segs = 4%nat.
Proof.
  destruct (connect_rect_to_rect_four layer_2x1 layer_3x1 [] 0 0.1 0 0.1)
    as (segs & Heq & Hlen & _).
  by exists segs.
Defined.

(** ** How the alignments compose *)

(** X12. With two distinct layer objects, each alignment is idempotent:
    repeating the call with the same arguments leaves the store as the
    first call made it. *)
Theorem align_idempotent (st : gmap nat Layer) (r0 r1 : nnetplot.ref)
    (q : Q) (l0 l1 : Layer) :
  r0 <> r1 -> st !! r0 = Some l0 -> st !! r1 = Some l1 ->
  (exists st', vertical_align r0 r1 q st = Some st'
               /\ vertical_align r0 r1 q st' = Some st')
  /\ (exists st', horizontal_align r0 r1 q st = Some st'
                  /\ horizontal_align r0 r1 q st' = Some st').
Proof.
  intros Hne H0 H1. split.
  - eexists. split; [by apply vertical_align_eq|].
    erewrite vertical_align_eq;
      [| by rewrite lookup_insert_ne | apply lookup_insert_eq].
    by rewrite insert_insert_eq.
  - eexists. split; [by apply horizontal_align_eq|].
    erewrite horizontal_align_eq;
      [| by rewrite lookup_insert_ne | apply lookup_insert_eq].
    by rewrite insert_insert_eq.
Qed.

Lemma align_idempotent_witness :
  exists st', horizontal_align 0%nat 1%nat 1 store2 = Some st'
              /\ horizontal_align 0%nat 1%nat 1 st' = Some st'.
Proof.
  apply (align_idempotent store2 0%nat 1%nat 1 layer_1x1 layer_12x1);
    (reflexivity || discriminate).
Defined.

(** X13. Vertical and horizontal alignment of the same pair of layers
    commute: both orders succeed and give the same store, also when
    the two arguments are one object. *)
Theorem align_commute (st : gmap nat Layer) (r0 r1 : nnetplot.ref)
    (ratio spacing : Q) (l0 l1 : Layer) :
  st !! r0 = Some l0 -> st !! r1 = Some l1 ->
  exists st',
    vertical_align r0 r1 ratio st ≫= horizontal_align r0 r1 spacing = Some st'
    /\ horizontal_align r0 r1 spacing st ≫= vertical_align r0 r1 ratio
       = Some st'.
Proof.
  intros H0 H1.
  rewrite (vertical_align_eq st r0 r1 ratio l0 l1 H0 H1).
  rewrite (horizontal_align_eq st r0 r1 spacing l0 l1 H0 H1).
  cbn [mbind option_bind].
  destruct (decide (r0 = r1)) as [<- | Hne].
  - assert (l1 = l0) as -> by congruence.
    eexists. split.
    + erewrite horizontal_align_eq; [| apply lookup_insert_eq ..].
      rewrite insert_insert_eq. reflexivity.
    + erewrite vertical_align_eq; [| apply lookup_insert_eq ..].
      rewrite insert_insert_eq. reflexivity.
  - eexists. split.
    + erewrite horizontal_align_eq;
        [| by rewrite lookup_insert_ne | apply lookup_insert_eq].
      rewrite insert_insert_eq. reflexivity.
    + erewrite vertical_align_eq;
        [| by rewrite lookup_insert_ne | apply lookup_insert_eq].
      rewrite insert_insert_eq. reflexivity.
Qed.

Lemma align_commute_witness :
  exists st',
    vertical_align 0%nat 1%nat 0.5 store2 ≫= horizontal_align 0%nat 1%nat 1
    = Some st'
    /\ horizontal_align 0%nat 1%nat 1 store2 ≫= vertical_align 0%nat 1%nat 0.5
       = Some st'.
Proof.
  apply (align_commute store2 0%nat 1%nat 0.5 1 layer_1x1 layer_12x1);
    reflexivity.
Defined.

(** X15. Horizontal spacings add up along a chain: after
    [horizontal_align(a, b, s1)] and then [horizontal_align(b, c, s2)]
    the anchor of [c] is the anchor [a] had at the start plus [s1]
    plus [s2], whatever the anchors of [b] and [c] were and whichever
    of the three arguments name the same object. *)
Theorem horizontal_align_chain (st : gmap nat Layer) (a b c : nnetplot.ref)
    (s1 s2 : Q) (la lb lc : Layer) :
  st !! a = Some la -> st !! b = Some lb -> st !! c = Some lc ->
  exists st1 st2 lc',
    horizontal_align a b s1 st = Some st1
    /\ horizontal_align b c s2 st1 = Some st2
    /\ st2 !! c = Some lc'
    /\ xanchor lc' = xanchor la + s1 + s2.
Proof.
  intros Ha Hb Hc.
  assert (Hc1 : exists lc1, <[b := set_xanchor lb (xanchor la + s1)]> st !! c
                            = Some lc1).
  { destruct (decide (b = c)) as [<- | Hne].
    - eexists. apply lookup_insert_eq.
    - exists lc. by rewrite lookup_insert_ne. }
  destruct Hc1 as [lc1 Hc1].
  eexists _, _, _. split; [by apply horizontal_align_eq|].
  split; [eapply horizontal_align_eq;
          [apply lookup_insert_eq | exact Hc1]|].
  split; [apply lookup_insert_eq|]. reflexivity.
Qed.

Lemma horizontal_align_chain_witness :
  exists st1 st2 lc',
    horizontal_align 0%nat 1%nat 1 store2 = Some st1
    /\ horizontal_align 1%nat 0%nat 0.2 st1 = Some st2
    /\ st2 !! 0%nat = Some lc'
    /\ xanchor lc' = xanchor layer_1x1 + 1 + 0.2.
Proof.
  apply (horizontal_align_chain store2 0%nat 1%nat 0%nat 1 0.2
           layer_1x1 layer_12x1 layer_1x1); reflexivity.
Defined.

(** ** Node centers under alignment *)

Section OneAxis.

Variable l : Layer.
Variable v : Q.

Lemma rows_loop_set_xanchor (idxs : list Z) (x x' y : Q) :
  Forall2 (fun p' p => snd p' = snd p)
          (rows_loop (set_xanchor l v) idxs x' y) (rows_loop l idxs x y).
Proof.
  revert y. induction idxs as [|i idxs IH]; intros y; simpl.
  - constructor.
  - constructor; [done|]. apply IH.
Qed.

Lemma cols_loop_set_xanchor (idxs : list Z) (x x' y : Q) :
  Forall2 (fun p' p => snd p' = snd p)
          (cols_loop (set_xanchor l v) idxs x' y) (cols_loop l idxs x y).
Proof.
  revert x x' y. induction idxs as [|i idxs IH]; intros x x' y; simpl.
  - constructor.
  - apply Forall2_app; [apply rows_loop_set_xanchor | apply IH].
Qed.

Lemma rows_loop_set_yanchor (idxs : list Z) (x y y' : Q) :
  Forall2 (fun p' p => fst p' = fst p)
          (rows_loop (set_yanchor l v) idxs x y') (rows_loop l idxs x y).
Proof.
  revert y y'. induction idxs as [|i idxs IH]; intros y y'; simpl.
  - constructor.
  - constructor; [done|]. apply IH.
Qed.

Lemma cols_loop_set_yanchor (idxs : list Z) (x y y' : Q) :
  Forall2 (fun p' p => fst p' = fst p)
          (cols_loop (set_yanchor l v) idxs x y') (cols_loop l idxs x y).
Proof.
  revert x y y'. induction idxs as [|i idxs IH]; intros x y y'; simpl.
  - constructor.
  - apply Forall2_app; [apply rows_loop_set_yanchor | apply IH].
Qed.

End OneAxis.

(** X16. An alignment moves the nodes of the second layer along one
    axis only.  After [horizontal_align] the layer has as many node
    centers as before and each has the very [y] it had; after
    [vertical_align] each has the very [x] it had. *)
Theorem align_moves_nodes_along_one_axis (st : gmap nat Layer)
    (r0 r1 : nnetplot.ref) (q : Q) (l0 l1 : Layer) :
  st !! r0 = Some l0 -> st !! r1 = Some l1 ->
  (exists st' l1',
     horizontal_align r0 r1 q st = Some st' /\ st' !! r1 = Some l1'
     /\ Forall2 (fun p' p => snd p' = snd p)
                (node_centers l1') (node_centers l1))
  /\ (exists st' l1',
        vertical_align r0 r1 q st = Some st' /\ st' !! r1 = Some l1'
        /\ Forall2 (fun p' p => fst p' = fst p)
                   (node_centers l1') (node_centers l1)).
Proof.
  intros H0 H1. split.
  - eexists _, _. split; [by apply horizontal_align_eq|].
    split; [apply lookup_insert_eq|].
    unfold node_centers. apply cols_loop_set_xanchor.
  - eexists _, _. split; [by apply vertical_align_eq|].
    split; [apply lookup_insert_eq|].
    unfold node_centers. apply cols_loop_set_yanchor.
Qed.

Lemma align_moves_nodes_along_one_axis_witness :
  exists st' l1',
    horizontal_align 0%nat 1%nat 1 store2 = Some st' /\ st' !! 1%nat = Some l1'
    /\ Forall2 (fun p' p => snd p' = snd p)
               (node_centers l1') (node_centers layer_12x1).
Proof.
  apply (proj1 (align_moves_nodes_along_one_axis store2 0%nat 1%nat 1
                  layer_1x1 layer_12x1 eq_refl eq_refl)).
Defined.

(** ** Rows and columns of the grid *)

(** X17. The node in column [c] and row [r] (counted from 0) is the
    element [c * rows + r] of [node_centers].  Nodes of one row have
    the very same [y] in every column, and nodes of one column the
    very same [x] in every row. *)
Theorem node_centers_rows_level (l : Layer) (c c' r r' : nat) :
  (c < Z.to_nat (columns l))%nat -> (c' < Z.to_nat (columns l))%nat ->
  (r < Z.to_nat (rows l))%nat -> (r' < Z.to_nat (rows l))%nat ->
  exists x x' y y',
    node_centers l !! (c * Z.to_nat (rows l) + r)%nat = Some (x, y)
    /\ node_centers l !! (c' * Z.to_nat (rows l) + r)%nat = Some (x', y)
    /\ node_centers l !! (c * Z.to_nat (rows l) + r')%nat = Some (x, y').
Proof.
  intros Hc Hc' Hr Hr'. eexists _, _, _, _.
  split; [by apply node_centers_lookup|].
  split; by apply node_centers_lookup.
Qed.

Lemma node_centers_rows_level_witness :
  exists x x' y y',
    node_centers layer_3x4 !! (0 * Z.to_nat (rows layer_3x4) + 1)%nat
    = Some (x, y)
    /\ node_centers layer_3x4 !! (3 * Z.to_nat (rows layer_3x4) + 1)%nat
       = Some (x', y)
    /\ node_centers layer_3x4 !! (0 * Z.to_nat (rows layer_3x4) + 2)%nat
       = Some (x, y').
Proof.
  apply (node_centers_rows_level layer_3x4 0 3 1 2); vm_compute; lia.
Defined.
